(** * Tactyl haptic relay server: the session store of [server.js]

    A shallow embedding of the Express handlers of [src/server.js] and of
    [cleanupExpiredSessions], with the process-wide [hapticSessions] map
    threaded explicitly through every handler. *)

From Stdlib Require Import ZArith String List Lia.
From stdpp Require Import gmap strings list fin_maps.

Set Warnings "-register-all".

Local Open Scope string_scope.
Local Open Scope Z_scope.

(** ** Values parsed by [express.json()] *)

Module Js.

(** A value produced by [JSON.parse].  Numbers are kept as integers: the
    handlers only ever test a number for being zero.  A string is kept as
    the UTF-8 bytes of its text.  An object keeps its members in the order
    of the request text. *)
Inductive JSON : Type :=
| JNull
| JBool (b : bool)
| JNum (n : Z)
| JStr (s : string)
| JArr (items : list JSON)
| JObj (members : list (string * JSON)).

(** A JavaScript value read from such data: [None] is [undefined]. *)
Definition Value : Type := option JSON.

(** An uncaught exception; the handlers can only raise a [TypeError]. *)
Inductive Exception : Type := TypeError.

(** [!!v]: the falsy values are [undefined], [null], [false], [0] and the
    empty string. *)
Definition truthy (v : Value) : bool :=
  match v with
  | None => false
  | Some JNull => false
  | Some (JBool b) => b
  | Some (JNum n) => negb (n =? 0)%Z
  | Some (JStr s) => negb (String.eqb s "")
  | Some (JArr _) => true
  | Some (JObj _) => true
  end.

(** Truthiness of a string such as a route parameter. *)
Definition truthy_string (s : string) : bool := negb (String.eqb s "").

(** The binding [JSON.parse] leaves for a member name: the last one in the
    text wins. *)
Fixpoint assoc_last (p : string) (ms : list (string * JSON)) : Value :=
  match ms with
  | [] => None
  | (k, v) :: rest =>
      match assoc_last p rest with
      | Some w => Some w
      | None => if String.eqb k p then Some v else None
      end
  end.

(** [v[p]] for a member name [p] that is neither an index, nor [length],
    nor a name found on a prototype ([ahap], [mediaUrl], [Pattern]): only
    an object can carry it, and reading it off [undefined] or [null]
    throws. *)
Definition get_member (p : string) (v : Value) : Exception + Value :=
  match v with
  | None => inl TypeError
  | Some JNull => inl TypeError
  | Some (JObj ms) => inr (assoc_last p ms)
  | Some _ => inr None
  end.

(** The UTF-16 code units a UTF-8 byte stands for: a continuation byte
    stands for none, the first byte of a four-byte sequence for the two
    halves of a surrogate pair, any other first byte for one. *)
Definition utf16_units (b : Ascii.ascii) : nat :=
  let n := Ascii.N_of_ascii b in
  if N.ltb n 128 then 1%nat
  else if N.ltb n 192 then 0%nat
  else if N.ltb n 240 then 1%nat
  else 2%nat.

(** The [length] of a JavaScript string: its number of UTF-16 code units. *)
Fixpoint utf16_length (s : string) : nat :=
  match s with
  | EmptyString => 0%nat
  | String b rest => (utf16_units b + utf16_length rest)%nat
  end.

(** [v.length]: strings and arrays have one, an object has it only as a
    member of its own, booleans and numbers have none, and [undefined] and
    [null] throw. *)
Definition get_length (v : Value) : Exception + Value :=
  match v with
  | None => inl TypeError
  | Some JNull => inl TypeError
  | Some (JStr s) => inr (Some (JNum (Z.of_nat (utf16_length s))))
  | Some (JArr items) => inr (Some (JNum (Z.of_nat (List.length items))))
  | Some (JObj ms) => inr (assoc_last "length" ms)
  | Some _ => inr None
  end.

(** Whether converting the value to a string, as a template literal does
    with what it interpolates, throws.  A parsed object with a member named
    [toString] has lost the method of its prototype to a value that cannot
    be called, and its [valueOf] gives no primitive either; an array joins
    the strings of its elements, so it throws when one of them does.
    Everything else has a string.  Nesting deeper than the stack of the
    engine allows is left aside. *)
Fixpoint ToString_throws (v : JSON) : bool :=
  match v with
  | JObj ms =>
      match assoc_last "toString" ms with
      | Some _ => true
      | None => false
      end
  | JArr items =>
      (fix any (l : list JSON) : bool :=
         match l with
         | [] => false
         | x :: rest => ToString_throws x || any rest
         end) items
  | _ => false
  end.

(** [`${v}`], kept as the value whose string is taken; [undefined] prints
    as such. *)
Definition interpolate (v : Value) : Exception + Value :=
  match v with
  | None => inr None
  | Some j => if ToString_throws j then inl TypeError else inr (Some j)
  end.

End Js.

Import Js.

(** ** Dates *)

(** The clock counts milliseconds since the epoch, as [Date.now()] does. *)
Definition Millis : Type := Z.

(** The string [toISOString] prints.  It has millisecond precision, and the
    clock stays within the range of [Date], so parsing it gives back the
    instant it was printed from: it is kept as that instant. *)
Record IsoString : Type := Iso { iso_millis : Millis }.

(** [new Date(ms).toISOString()] *)
Definition toISOString (ms : Millis) : IsoString := Iso ms.

(** [new Date(s).getTime()] *)
Definition getTime (s : IsoString) : Millis := iso_millis s.

(** [24 * 60 * 60 * 1000] *)
Definition TTL : Z := 24 * 60 * 60 * 1000.

(** ** The store *)

(** The object literal stored by the create handler. *)
Record Session : Type := mkSession {
  ahap : Value;
  mediaUrl : Value;
  created : IsoString;
  expires : IsoString
}.

(** [hapticSessions], a [Map] from session id to session. *)
Abbreviation Store := (gmap string Session).

(** The test of the sweep loop: [new Date(value.expires).getTime() < now]. *)
Definition expired (now : Millis) (value : Session) : bool :=
  getTime (expires value) <? now.

(** One turn of the loop body on the entry [(key, value)]. *)
Definition cleanup_entry (now : Millis) (key : string) (value : Session)
    (sessions : Store) : Store :=
  if expired now value then delete key sessions else sessions.

(** [cleanupExpiredSessions()], with [now] the value [Date.now()] returns at
    its first line.  The loop visits every entry of the map once; an entry
    deleted in its own turn does not disturb the visit of the others. *)
Definition cleanupExpiredSessions (now : Millis) (sessions : Store) : Store :=
  map_fold (cleanup_entry now) sessions sessions.

(** ** Requests and responses *)

(** What the create handler reads of a request; [body] lists the members of
    the parsed JSON body, none when the request carries no JSON object. *)
Record PostRequest : Type := mkPost {
  params_sessionId : string;
  body : list (string * JSON);
  protocol : string;
  host : option string
}.

(** The three readings of the clock the create handler makes, in order:
    [new Date()] for [created], [Date.now()] for [expires], and the
    [Date.now()] of the sweep it calls. *)
Record Ticks : Type := mkTicks {
  tick_created : Millis;
  tick_expires : Millis;
  tick_cleanup : Millis
}.

Inductive Body : Type :=
| JsonError (error : string)
| JsonCreated (sessionId qrData shareUrl : string)
| JsonSession (session : Session)
| JsonHealth (sessions : nat)
| Text (message : string)
| SharePage (sessionId : string) (events : Value) (createdAt : Millis)
| Uncaught (e : Exception).

Record Response : Type := mkResponse { status : nat; payload : Body }.

(** [res.json(...)] and [res.send(...)] answer 200 unless told otherwise. *)
Definition ok (b : Body) : Response := mkResponse 200 b.

(** A template literal prints a missing host as [undefined]. *)
Definition host_text (h : option string) : string :=
  match h with Some s => s | None => "undefined" end.

(** [app.post('/api/haptic/:sessionId', ...)] *)
Definition post_haptic (clk : Ticks) (req : PostRequest) (sessions : Store)
    : Response * Store :=
  let sessionId := params_sessionId req in
  let ahap := assoc_last "ahap" (body req) in
  let mediaUrl := assoc_last "mediaUrl" (body req) in
  if negb (truthy_string sessionId) || negb (truthy ahap) then
    (mkResponse 400 (JsonError "Missing required data"), sessions)
  else
    let sessions1 :=
      <[sessionId := mkSession ahap mediaUrl
                       (toISOString (tick_created clk))
                       (toISOString (tick_expires clk + TTL))]> sessions in
    let sessions2 := cleanupExpiredSessions (tick_cleanup clk) sessions1 in
    (ok (JsonCreated sessionId
           ("haptic://load/" ++ sessionId)
           (protocol req ++ "://" ++ host_text (host req)
              ++ "/haptic/" ++ sessionId)),
     sessions2).

(** [app.get('/api/haptic/:sessionId', ...)].  The handler does not read the
    clock. *)
Definition get_api_haptic (sessionId : string) (sessions : Store) : Response :=
  match sessions !! sessionId with
  | None => mkResponse 404 (JsonError "Session not found or expired")
  | Some session => ok (JsonSession session)
  end.

(** [app.get('/haptic/:sessionId', ...)].  The page is kept as the three
    values its template interpolates; an exception thrown while the template
    is evaluated, by reading [session.ahap.Pattern.length] or by turning it
    into a string, leaves the handler uncaught and Express answers 500. *)
Definition get_haptic_page (sessionId : string) (sessions : Store) : Response :=
  match sessions !! sessionId with
  | None => mkResponse 404 (Text "Haptic session not found or expired")
  | Some session =>
      match get_member "Pattern" (ahap session) with
      | inl e => mkResponse 500 (Uncaught e)
      | inr pattern =>
          match get_length pattern with
          | inl e => mkResponse 500 (Uncaught e)
          | inr length =>
              match interpolate length with
              | inl e => mkResponse 500 (Uncaught e)
              | inr events =>
                  ok (SharePage sessionId events (getTime (created session)))
              end
          end
      end
  end.

(** [app.get('/health', ...)]; the uptime of the process is left out. *)
Definition get_health (sessions : Store) : Response :=
  ok (JsonHealth (size sessions)).

(** ** The server as a whole *)

(** What can happen to the store: one of the four routes is served, or the
    hourly timer set by [setInterval] fires. *)
Inductive Event : Type :=
| PostHaptic (clk : Ticks) (req : PostRequest)
| GetApiHaptic (sessionId : string)
| GetHapticPage (sessionId : string)
| GetHealth
| TimerSweep (now : Millis).

(** The answer sent (the timer sends none) and the store left behind. *)
Definition step (e : Event) (sessions : Store) : option Response * Store :=
  match e with
  | PostHaptic clk req =>
      let (res, sessions') := post_haptic clk req sessions in
      (Some res, sessions')
  | GetApiHaptic sessionId => (Some (get_api_haptic sessionId sessions), sessions)
  | GetHapticPage sessionId => (Some (get_haptic_page sessionId sessions), sessions)
  | GetHealth => (Some (get_health sessions), sessions)
  | TimerSweep now => (None, cleanupExpiredSessions now sessions)
  end.

(** The store after a sequence of events, oldest first. *)
Fixpoint run (evs : list Event) (sessions : Store) : Store :=
  match evs with
  | [] => sessions
  | e :: rest => run rest (snd (step e sessions))
  end.

(** The event is a create request for the key [K]. *)
Definition inserts (K : string) (e : Event) : bool :=
  match e with
  | PostHaptic _ req => String.eqb (params_sessionId req) K
  | _ => false
  end.

(** The event is a read of the store or a sweep of the timer. *)
Definition read_or_sweep (e : Event) : bool :=
  match e with
  | PostHaptic _ _ => false
  | _ => true
  end.

(** The two answers the claims name. *)
Definition InvalidArgument : Response :=
  mkResponse 400 (JsonError "Missing required data").

Definition NotFound : Response :=
  mkResponse 404 (JsonError "Session not found or expired").

(** The record a successful create request writes. *)
Definition new_session (clk : Ticks) (req : PostRequest) : Session :=
  mkSession (assoc_last "ahap" (body req)) (assoc_last "mediaUrl" (body req))
    (toISOString (tick_created clk)) (toISOString (tick_expires clk + TTL)).

(** The request passes the guard of the create handler. *)
Definition valid (req : PostRequest) : bool :=
  truthy_string (params_sessionId req) && truthy (assoc_last "ahap" (body req)).

(** The payload has a [Pattern] member that is an array. *)
Definition has_Pattern_array (v : Value) : bool :=
  match get_member "Pattern" v with
  | inr (Some (JArr _)) => true
  | _ => false
  end.

(** Reading [.length] off the payload's [Pattern] throws: the member is
    missing or is [null]. *)
Definition Pattern_length_throws (v : Value) : bool :=
  match get_member "Pattern" v with
  | inl _ => true
  | inr None => true
  | inr (Some JNull) => true
  | inr (Some _) => false
  end.

(** Turning the value into a string throws; [undefined] has a string. *)
Definition unprintable (v : Value) : bool :=
  match v with
  | Some j => ToString_throws j
  | None => false
  end.

(** ** Sample data

    A request that stores a three-event pattern under [abc123], and the
    store it leaves when it is served at time [0] by an empty server. *)
Definition demo_request : PostRequest :=
  mkPost "abc123"
    [("ahap", JObj [("Pattern", JArr [JNum 1; JNum 2; JNum 3])]);
     ("mediaUrl", JStr "http://media/x.mp4")]
    "http" (Some "localhost:3000").

Definition demo_session : Session :=
  new_session (mkTicks 0 0 0) demo_request.

Definition demo_store : Store :=
  snd (post_haptic (mkTicks 0 0 0) demo_request ∅).

(** A second request, for another key, served a millisecond after the
    record of [demo_store] has expired. *)
Definition other_request : PostRequest :=
  mkPost "other" [("ahap", JObj [("Pattern", JArr [])])] "http" None.

Definition late : Ticks := mkTicks 86400001 86400001 86400001.

(** The same key as [demo_request] with another payload. *)
Definition demo_overwrite : PostRequest :=
  mkPost "abc123" [("ahap", JObj [("Pattern", JArr [JNum 9])])] "http" None.

(** A request with an empty key. *)
Definition empty_key_request : PostRequest :=
  mkPost "" [("ahap", JObj [("Pattern", JArr [])])] "http" None.

(** The record of [demo_store] is swept once expired; requests for another
    key, reads and further sweeps follow. *)
Definition swept_store : Store := cleanupExpiredSessions 86400001 demo_store.

Definition later_events : list Event :=
  [GetApiHaptic "abc123"; PostHaptic late other_request;
   TimerSweep 90000000; GetHapticPage "abc123"; GetHealth].

(** A payload the create handler accepts whose [Pattern] is a number. *)
Definition scalar_pattern_request : PostRequest :=
  mkPost "abc123" [("ahap", JObj [("Pattern", JNum 7)])] "http" None.

Definition scalar_pattern_store : Store :=
  snd (post_haptic (mkTicks 0 0 0) scalar_pattern_request ∅).

(** A payload whose [Pattern] is an object with a [length] that has no
    string. *)
Definition unprintable_length_request : PostRequest :=
  mkPost "abc123"
    [("ahap", JObj [("Pattern",
                     JObj [("length", JObj [("toString", JNum 1)])])])]
    "http" None.

(** A payload whose [Pattern] is a string outside the basic plane: one
    character, four bytes, two code units. *)
Definition emoji_pattern_request : PostRequest :=
  mkPost "abc123"
    [("ahap", JObj [("Pattern",
                     JStr (String (Ascii.ascii_of_N 240)
                          (String (Ascii.ascii_of_N 159)
                          (String (Ascii.ascii_of_N 142)
                          (String (Ascii.ascii_of_N 172) EmptyString)))))])]
    "http" None.

(** A payload with no [Pattern] member at all. *)
Definition no_pattern_request : PostRequest :=
  mkPost "abc123" [("ahap", JObj [("Version", JNum 1)])] "http" None.

(** ** Vocabulary for sequences of events *)

(** The event is a create request for [K] that passes the guard, and so
    writes the entry of [K]. *)
Definition overwrites (K : string) (e : Event) : bool :=
  match e with
  | PostHaptic _ req => valid req && String.eqb (params_sessionId req) K
  | _ => false
  end.

(** The reading of the clock with which the event sweeps the store, when it
    does: the timer always sweeps, a create request once past its guard. *)
Definition sweep_time (e : Event) : option Millis :=
  match e with
  | PostHaptic clk req => if valid req then Some (tick_cleanup clk) else None
  | TimerSweep now => Some now
  | _ => None
  end.

(** The event neither writes the entry of [K] nor sweeps at a time past the
    expiry of the record [s]. *)
Definition spares (K : string) (s : Session) (e : Event) : bool :=
  negb (overwrites K e) &&
  match sweep_time e with
  | Some now => negb (expired now s)
  | None => true
  end.

(** Within a create request the clock does not run backwards between the
    reading for [created] and the reading for [expires]. *)
Definition clock_ordered (e : Event) : bool :=
  match e with
  | PostHaptic clk _ => tick_created clk <=? tick_expires clk
  | _ => true
  end.

(** The event is a create request that passes the guard. *)
Definition accepted (e : Event) : bool :=
  match e with
  | PostHaptic _ req => valid req
  | _ => false
  end.

(** The [qrData] member of an answer, when it has one. *)
Definition qrData_of (r : Response) : option string :=
  match payload r with
  | JsonCreated _ qrData _ => Some qrData
  | _ => None
  end.

(** The value is a JSON object. *)
Definition is_object (v : JSON) : bool :=
  match v with
  | JObj _ => true
  | _ => false
  end.

(** The number of records a sweep at [now] finds expired. *)
Definition expired_count (now : Millis) (sessions : Store) : nat :=
  size (filter (λ kv : string * Session, expired now kv.2 = true) sessions).

(** Two create requests and a timer sweep, all before any expiry. *)
Definition busy_events : list Event :=
  [PostHaptic (mkTicks 10 11 11) other_request;
   GetApiHaptic "abc123";
   TimerSweep 3600000;
   PostHaptic (mkTicks 20 20 21) empty_key_request;
   GetHealth].

(** The first request the server of the samples serves, and what follows. *)
Definition demo_events : list Event :=
  PostHaptic (mkTicks 0 0 0) demo_request :: busy_events.

(** A payload that is a string: truthy, but no object. *)
Definition string_payload_request : PostRequest :=
  mkPost "abc123" [("ahap", JStr "buzz")] "https" (Some "tactyl.example").

(** ** The sweep *)

Section Sweep.

Variable now : Millis.

(** The loop, started on any map [acc] and run over the entries of
    [scanned], drops from [acc] the keys whose entry in [scanned] is
    expired and leaves the others as they are. *)
Lemma fold_cleanup_lookup (acc scanned : Store) (k : string) :
  map_fold (cleanup_entry now) acc scanned !! k =
  match scanned !! k with
  | Some s => if expired now s then None else acc !! k
  | None => acc !! k
  end.
Proof.
  revert k.
  apply (map_fold_weak_ind (λ (r m : Store), ∀ k : string,
    r !! k = match m !! k with
             | Some s => if expired now s then None else acc !! k
             | None => acc !! k
             end)).
  - intros k. by rewrite lookup_empty.
  - intros i x m r Hi IH k. unfold cleanup_entry.
    destruct (decide (i = k)) as [->|Hne].
    + rewrite lookup_insert_eq.
      destruct (expired now x).
      * by rewrite lookup_delete_eq.
      * by rewrite IH, Hi.
    + rewrite lookup_insert_ne by done.
      destruct (expired now x); [rewrite lookup_delete_ne by done|]; apply IH.
Qed.

Lemma lookup_cleanup (sessions : Store) (k : string) :
  cleanupExpiredSessions now sessions !! k =
  match sessions !! k with
  | Some s => if expired now s then None else Some s
  | None => None
  end.
Proof.
  unfold cleanupExpiredSessions. rewrite fold_cleanup_lookup.
  destruct (sessions !! k) as [s|] eqn:E; [|done].
  by destruct (expired now s).
Qed.

Lemma lookup_cleanup_None (sessions : Store) (k : string) :
  sessions !! k = None → cleanupExpiredSessions now sessions !! k = None.
Proof. intros H. by rewrite lookup_cleanup, H. Qed.

Lemma lookup_cleanup_Some (sessions : Store) (k : string) (s : Session) :
  cleanupExpiredSessions now sessions !! k = Some s →
  sessions !! k = Some s ∧ expired now s = false.
Proof.
  rewrite lookup_cleanup. destruct (sessions !! k) as [s'|]; [|done].
  destruct (expired now s') eqn:E; [done|]. by intros [= ->].
Qed.

(** The sweep is the filter that keeps the entries not yet expired. *)
Lemma cleanup_filter (sessions : Store) :
  cleanupExpiredSessions now sessions =
  filter (λ kv : string * Session, expired now kv.2 = false) sessions.
Proof.
  apply map_eq. intros k. rewrite lookup_cleanup, map_lookup_filter.
  destruct (sessions !! k) as [s|]; [|done]. simpl.
  destruct (expired now s) eqn:E.
  - by rewrite option_guard_False.
  - by rewrite option_guard_True.
Qed.

End Sweep.

(** A sweep followed by a later one removes what the later one alone
    removes: the second pass only takes the records that expired between
    the two. *)
Lemma cleanup_twice_later (now now' : Millis) (sessions : Store) :
  now ≤ now' →
  cleanupExpiredSessions now' (cleanupExpiredSessions now sessions) =
  cleanupExpiredSessions now' sessions.
Proof.
  intros Hle. apply map_eq. intros k. rewrite !lookup_cleanup.
  destruct (sessions !! k) as [s|]; [|done].
  unfold expired.
  destruct (Z.ltb_spec (getTime (expires s)) now) as [H1|H1]; [|done].
  destruct (Z.ltb_spec (getTime (expires s)) now') as [H2|H2]; [done|lia].
Qed.

(** ** The handlers *)

Lemma truthy_string_spec (s : string) : truthy_string s = true ↔ s ≠ "".
Proof.
  unfold truthy_string. destruct (String.eqb_spec s ""); simpl; split;
    intros; congruence.
Qed.

Lemma valid_spec (req : PostRequest) :
  valid req = true ↔
  params_sessionId req ≠ "" ∧ truthy (assoc_last "ahap" (body req)) = true.
Proof.
  unfold valid. rewrite andb_true_iff, truthy_string_spec. tauto.
Qed.

(** A request that fails the guard is answered 400 and the map is not
    touched. *)
Lemma post_haptic_invalid (clk : Ticks) (req : PostRequest) (sessions : Store) :
  valid req = false → post_haptic clk req sessions = (InvalidArgument, sessions).
Proof.
  unfold valid, post_haptic. intros H.
  destruct (truthy_string (params_sessionId req));
    destruct (truthy (assoc_last "ahap" (body req))); simpl in *;
    done.
Qed.

(** A request that passes it leaves the map set at its key and then swept. *)
Lemma post_haptic_valid (clk : Ticks) (req : PostRequest) (sessions : Store) :
  valid req = true →
  snd (post_haptic clk req sessions) =
  cleanupExpiredSessions (tick_cleanup clk)
    (<[params_sessionId req := new_session clk req]> sessions).
Proof.
  unfold valid, post_haptic. intros [-> ->]%andb_true_iff. done.
Qed.

Lemma post_haptic_valid_response (clk : Ticks) (req : PostRequest)
    (sessions : Store) :
  valid req = true → status (fst (post_haptic clk req sessions)) = 200%nat.
Proof.
  unfold valid, post_haptic. intros [-> ->]%andb_true_iff. done.
Qed.

(** The record just written survives the sweep of its own request unless
    the clock has run past its expiry by then. *)
Lemma new_session_not_expired (clk : Ticks) (req : PostRequest) :
  tick_cleanup clk ≤ tick_expires clk + TTL →
  expired (tick_cleanup clk) (new_session clk req) = false.
Proof.
  intros H. unfold expired, new_session, getTime, toISOString. simpl.
  apply Z.ltb_ge. exact H.
Qed.

Lemma post_haptic_lookup_same (clk : Ticks) (req : PostRequest)
    (sessions : Store) :
  valid req = true →
  tick_cleanup clk ≤ tick_expires clk + TTL →
  snd (post_haptic clk req sessions) !! params_sessionId req =
  Some (new_session clk req).
Proof.
  intros Hv Ht. rewrite post_haptic_valid by done.
  rewrite lookup_cleanup, lookup_insert_eq.
  by rewrite new_session_not_expired.
Qed.

Lemma post_haptic_lookup_other (clk : Ticks) (req : PostRequest)
    (sessions : Store) (J : string) :
  valid req = true →
  J ≠ params_sessionId req →
  snd (post_haptic clk req sessions) !! J =
  cleanupExpiredSessions (tick_cleanup clk) sessions !! J.
Proof.
  intros Hv Hne. rewrite post_haptic_valid by done.
  rewrite !lookup_cleanup, lookup_insert_ne by done. done.
Qed.

Lemma get_api_haptic_Some (K : string) (sessions : Store) (s : Session) :
  sessions !! K = Some s → get_api_haptic K sessions = ok (JsonSession s).
Proof. unfold get_api_haptic. by intros ->. Qed.

Lemma get_api_haptic_NotFound (K : string) (sessions : Store) :
  get_api_haptic K sessions = NotFound ↔ sessions !! K = None.
Proof.
  unfold get_api_haptic, NotFound, ok.
  destruct (sessions !! K); split; intros; congruence.
Qed.

(** ** Sequences of events *)

(** An event that is not a create request for [K] either removes the entry
    of [K] or leaves it as it is. *)
Lemma step_no_insert (K : string) (e : Event) (sessions : Store) :
  inserts K e = false →
  snd (step e sessions) !! K = None ∨
  snd (step e sessions) !! K = sessions !! K.
Proof.
  destruct e as [clk req| | | |now]; simpl; intros Hi; try (by right).
  - destruct (valid req) eqn:Hv.
    + apply String.eqb_neq in Hi.
      pose proof (post_haptic_lookup_other clk req sessions K Hv) as Ho.
      destruct (post_haptic clk req sessions) as [res st'] eqn:Hp. simpl in *.
      rewrite Ho by congruence. rewrite lookup_cleanup.
      destruct (sessions !! K) as [s|]; [|by left].
      destruct (expired (tick_cleanup clk) s); [by left|by right].
    + rewrite post_haptic_invalid by done. by right.
  - rewrite lookup_cleanup.
    destruct (sessions !! K) as [s|]; [|by left].
    destruct (expired now s); [by left|by right].
Qed.

Lemma run_no_insert (K : string) (evs : list Event) (sessions : Store) :
  forallb (λ e, negb (inserts K e)) evs = true →
  run evs sessions !! K = None ∨ run evs sessions !! K = sessions !! K.
Proof.
  revert sessions. induction evs as [|e evs IH]; intros sessions; simpl.
  - by right.
  - intros [He Hevs]%andb_true_iff. apply negb_true_iff in He.
    destruct (IH (snd (step e sessions)) Hevs) as [HN|HE]; [by left|].
    rewrite HE. by apply step_no_insert.
Qed.

Lemma read_or_sweep_no_insert (K : string) (evs : list Event) :
  forallb read_or_sweep evs = true →
  forallb (λ e, negb (inserts K e)) evs = true.
Proof.
  induction evs as [|e evs IH]; simpl; [done|].
  intros [He Hevs]%andb_true_iff. rewrite IH by done.
  by destruct e.
Qed.

(** ** The scenarios of the specification that the code runs as written *)

(** Scenario A: the record read back right after it is stored. *)
Example scenario_insert_lookup :
  get_api_haptic "abc123" demo_store =
  ok (JsonSession
        (mkSession (Some (JObj [("Pattern", JArr [JNum 1; JNum 2; JNum 3])]))
           (Some (JStr "http://media/x.mp4")) (Iso 0) (Iso 86400000))).
Proof. vm_compute; reflexivity. Qed.

(** Scenario B: a key never stored. *)
Example scenario_never_inserted :
  get_api_haptic "never-inserted" demo_store = NotFound.
Proof. vm_compute; reflexivity. Qed.

(** Scenario D: a sweep one second after the insert removes nothing, a sweep
    past the expiry removes the record. *)
Example scenario_sweep_counts :
  size demo_store = 1%nat ∧
  size (cleanupExpiredSessions 1000 demo_store) = 1%nat ∧
  size (cleanupExpiredSessions 86400001 demo_store) = 0%nat.
Proof. repeat split; vm_compute; reflexivity. Qed.

(** The answer to a create request carries the two derived strings. *)
Example scenario_create_response :
  fst (post_haptic (mkTicks 0 0 0) demo_request ∅) =
  ok (JsonCreated "abc123" "haptic://load/abc123"
        "http://localhost:3000/haptic/abc123").
Proof. vm_compute; reflexivity. Qed.

(** ** Lookup and expiry *)

(** C1, as stated, fails: the record stored at time [0] expires at
    [86400000], yet a lookup made at that time, before any sweep has run,
    answers 200 with the record and not [NotFound]. *)
Lemma lookup_expired_unswept_counterexample :
  demo_store !! "abc123" = Some demo_session ∧
  getTime (expires demo_session) ≤ 86400000 ∧
  get_api_haptic "abc123" demo_store = ok (JsonSession demo_session) ∧
  get_api_haptic "abc123" demo_store ≠ NotFound.
Proof.
  assert (demo_store !! "abc123" = Some demo_session) as H
    by (vm_compute; reflexivity).
  split; [exact H|]. split; [vm_compute; discriminate|].
  rewrite (get_api_haptic_Some _ _ _ H). split; [reflexivity|discriminate].
Qed.

(** C1, amended: a record under [K] whose [expires] is at or before the time
    [t] of the lookup is still returned while it is physically in the map;
    once a sweep has run at a time [now] past its [expires], the lookup
    answers [NotFound]. *)
Theorem lookup_expired_after_sweep (sessions : Store) (K : string)
    (s : Session) (t now : Millis) :
  sessions !! K = Some s →
  getTime (expires s) ≤ t →
  getTime (expires s) < now →
  get_api_haptic K sessions = ok (JsonSession s) ∧
  get_api_haptic K (cleanupExpiredSessions now sessions) = NotFound.
Proof.
  intros HK _ Hnow. split; [by apply get_api_haptic_Some|].
  apply get_api_haptic_NotFound. rewrite lookup_cleanup, HK.
  unfold expired. by rewrite (proj2 (Z.ltb_lt _ _) Hnow).
Qed.

Lemma lookup_expired_after_sweep_witness :
  get_api_haptic "abc123" demo_store = ok (JsonSession demo_session) ∧
  get_api_haptic "abc123" (cleanupExpiredSessions 86400001 demo_store)
    = NotFound.
Proof.
  apply (lookup_expired_after_sweep demo_store "abc123" demo_session
           86400000 86400001).
  - vm_compute; reflexivity.
  - vm_compute; discriminate.
  - vm_compute; reflexivity.
Defined.

(** ** What the sweep removes *)

(** C2, as stated, fails at the boundary: a record whose [expires] equals
    the time of the sweep is kept. *)
Lemma sweep_boundary_counterexample :
  demo_store !! "abc123" = Some demo_session ∧
  getTime (expires demo_session) ≤ 86400000 ∧
  cleanupExpiredSessions 86400000 demo_store !! "abc123" = Some demo_session.
Proof.
  split; [vm_compute; reflexivity|].
  split; [vm_compute; discriminate|].
  vm_compute; reflexivity.
Qed.

(** C2, amended: the sweep removes exactly the records whose [expires] is
    strictly before [now]; a record with [expires >= now] is kept as it
    is. *)
Theorem sweep_removes_strictly_expired (now : Millis) (sessions : Store)
    (k : string) (s : Session) :
  sessions !! k = Some s →
  cleanupExpiredSessions now sessions !! k =
  if getTime (expires s) <? now then None else Some s.
Proof. intros H. by rewrite lookup_cleanup, H. Qed.

Lemma sweep_removes_strictly_expired_witness :
  cleanupExpiredSessions 86400001 demo_store !! "abc123" =
  if getTime (expires demo_session) <? 86400001 then None
  else Some demo_session.
Proof.
  apply (sweep_removes_strictly_expired 86400001 demo_store "abc123"
           demo_session).
  vm_compute; reflexivity.
Defined.

(** ** The frame of a create request *)

(** C3, as stated, fails: the create handler sweeps the whole map, so the
    entry under [abc123], present before the request for [other], is gone
    after it. *)
Lemma create_sweeps_others_counterexample :
  valid other_request = true ∧
  "abc123" ≠ params_sessionId other_request ∧
  demo_store !! "abc123" = Some demo_session ∧
  snd (post_haptic late other_request demo_store) !! "abc123" = None.
Proof.
  split; [reflexivity|]. split; [discriminate|].
  split; vm_compute; reflexivity.
Qed.

(** C3, amended: a create request for [K] leaves every entry under a key
    [J ≠ K] whose [expires] is not before the time of the handler's sweep
    present and unchanged, removes those whose [expires] is before it, and
    adds no entry under such a key. *)
Theorem create_frame (clk : Ticks) (req : PostRequest) (sessions : Store)
    (K J : string) :
  params_sessionId req = K →
  valid req = true →
  J ≠ K →
  snd (post_haptic clk req sessions) !! J =
  match sessions !! J with
  | Some s => if getTime (expires s) <? tick_cleanup clk then None else Some s
  | None => None
  end.
Proof.
  intros <- Hv Hne. rewrite post_haptic_lookup_other by done.
  apply lookup_cleanup.
Qed.

Lemma create_frame_witness :
  snd (post_haptic (mkTicks 5 5 5) other_request demo_store) !! "abc123" =
  match demo_store !! "abc123" with
  | Some s => if getTime (expires s) <? 5 then None else Some s
  | None => None
  end.
Proof.
  apply (create_frame (mkTicks 5 5 5) other_request demo_store
           "other" "abc123").
  - reflexivity.
  - reflexivity.
  - discriminate.
Defined.

(** ** Create, then read *)

(** C4: after a create request with a non-empty key [K] and a truthy payload
    [P], whose own sweep runs no later than the expiry it has just set, a
    lookup of [K] answers 200 with a record whose payload is [P]. *)
Theorem insert_then_lookup (clk : Ticks) (req : PostRequest)
    (sessions : Store) (K : string) (P : JSON) :
  params_sessionId req = K →
  K ≠ "" →
  assoc_last "ahap" (body req) = Some P →
  truthy (Some P) = true →
  tick_cleanup clk ≤ tick_expires clk + TTL →
  ∃ s : Session,
    get_api_haptic K (snd (post_haptic clk req sessions)) = ok (JsonSession s)
    ∧ ahap s = Some P.
Proof.
  intros <- HK HP Ht Hclk.
  assert (valid req = true) as Hv by (apply valid_spec; by rewrite HP).
  exists (new_session clk req). split.
  - apply get_api_haptic_Some. by apply post_haptic_lookup_same.
  - unfold new_session. simpl. exact HP.
Qed.

Lemma insert_then_lookup_witness :
  ∃ s : Session,
    get_api_haptic "abc123"
      (snd (post_haptic (mkTicks 0 0 0) demo_request ∅)) = ok (JsonSession s)
    ∧ ahap s = Some (JObj [("Pattern", JArr [JNum 1; JNum 2; JNum 3])]).
Proof.
  apply (insert_then_lookup (mkTicks 0 0 0) demo_request ∅ "abc123"
           (JObj [("Pattern", JArr [JNum 1; JNum 2; JNum 3])])).
  - reflexivity.
  - discriminate.
  - reflexivity.
  - reflexivity.
  - vm_compute; discriminate.
Defined.

(** C5: after two create requests for the same key [K], the second with a
    truthy payload [B] and not yet expired at its own sweep, the second is
    answered 200 like any other and a lookup of [K] returns exactly the
    record the second one wrote: payload [B], nothing of the first. *)
Theorem last_write_wins (clk1 clk2 : Ticks) (req1 req2 : PostRequest)
    (sessions : Store) (K : string) (B : JSON) :
  params_sessionId req1 = K →
  params_sessionId req2 = K →
  K ≠ "" →
  assoc_last "ahap" (body req2) = Some B →
  truthy (Some B) = true →
  tick_cleanup clk2 ≤ tick_expires clk2 + TTL →
  let sessions1 := snd (post_haptic clk1 req1 sessions) in
  status (fst (post_haptic clk2 req2 sessions1)) = 200%nat ∧
  get_api_haptic K (snd (post_haptic clk2 req2 sessions1)) =
    ok (JsonSession (new_session clk2 req2)) ∧
  ahap (new_session clk2 req2) = Some B.
Proof.
  intros _ <- HK HB Ht Hclk sessions1.
  assert (valid req2 = true) as Hv by (apply valid_spec; by rewrite HB).
  split; [by apply post_haptic_valid_response|]. split.
  - apply get_api_haptic_Some. by apply post_haptic_lookup_same.
  - exact HB.
Qed.

Lemma last_write_wins_witness :
  status (fst (post_haptic (mkTicks 7 7 7) demo_overwrite demo_store))
    = 200%nat ∧
  get_api_haptic "abc123"
    (snd (post_haptic (mkTicks 7 7 7) demo_overwrite demo_store)) =
    ok (JsonSession (new_session (mkTicks 7 7 7) demo_overwrite)) ∧
  ahap (new_session (mkTicks 7 7 7) demo_overwrite) =
    Some (JObj [("Pattern", JArr [JNum 9])]).
Proof.
  apply (last_write_wins (mkTicks 0 0 0) (mkTicks 7 7 7) demo_request
           demo_overwrite ∅ "abc123" (JObj [("Pattern", JArr [JNum 9])])).
  - reflexivity.
  - reflexivity.
  - discriminate.
  - reflexivity.
  - reflexivity.
  - vm_compute; discriminate.
Defined.

(** ** Timestamps *)

(** C6, as stated, fails: the handler reads the clock once for [created]
    and once more for [expires]; when it reads [10] and then [11], the
    record is created at [10] and expires at [86400011], a millisecond more
    than 24 hours later. *)
Lemma expires_second_reading_counterexample :
  valid demo_request = true ∧
  snd (post_haptic (mkTicks 10 11 12) demo_request ∅) !! "abc123" =
    Some (new_session (mkTicks 10 11 12) demo_request) ∧
  getTime (created (new_session (mkTicks 10 11 12) demo_request)) = 10 ∧
  getTime (expires (new_session (mkTicks 10 11 12) demo_request)) = 86400011 ∧
  getTime (expires (new_session (mkTicks 10 11 12) demo_request)) ≠
  getTime (created (new_session (mkTicks 10 11 12) demo_request))
    + 86400 * 1000.
Proof.
  split; [reflexivity|]. split; [vm_compute; reflexivity|].
  split; [reflexivity|]. split; [reflexivity|]. vm_compute. discriminate.
Qed.

(** C6, amended: a create request that passes the guard, swept no later than
    the expiry it sets, leaves under its key a record whose [created] is the
    reading of the clock taken for it and whose [expires] is the next
    reading plus 86400000 milliseconds (24 hours): [expires] is [created]
    plus 24 hours plus the time between the two readings, nothing when they
    coincide.  Whatever reads and sweeps follow, the record found under the
    key is that same record. *)
Theorem created_expires_from_readings (clk : Ticks) (req : PostRequest)
    (sessions : Store) :
  valid req = true →
  tick_cleanup clk ≤ tick_expires clk + TTL →
  let K := params_sessionId req in
  let sessions' := snd (post_haptic clk req sessions) in
  ∃ s : Session,
    sessions' !! K = Some s ∧
    getTime (created s) = tick_created clk ∧
    getTime (expires s) = tick_expires clk + 86400 * 1000 ∧
    getTime (expires s) =
      getTime (created s) + 86400 * 1000
        + (tick_expires clk - tick_created clk) ∧
    ∀ (evs : list Event) (s' : Session),
      forallb read_or_sweep evs = true →
      run evs sessions' !! K = Some s' →
      s' = s ∧ created s' = created s ∧ expires s' = expires s.
Proof.
  intros Hv Hts K sessions'.
  exists (new_session clk req).
  assert (sessions' !! K = Some (new_session clk req)) as HK
    by (by apply post_haptic_lookup_same).
  split; [exact HK|]. split; [reflexivity|]. split; [reflexivity|].
  split; [unfold new_session, getTime, toISOString, TTL; simpl; lia|].
  intros evs s' Hevs Hrun.
  destruct (run_no_insert K evs sessions'
              (read_or_sweep_no_insert K evs Hevs)) as [HN|HE].
  - congruence.
  - rewrite HE, HK in Hrun. injection Hrun as <-. done.
Qed.

Lemma created_expires_from_readings_witness :
  ∃ s : Session,
    snd (post_haptic (mkTicks 10 11 12) demo_request ∅) !! "abc123" = Some s ∧
    getTime (created s) = 10 ∧
    getTime (expires s) = 11 + 86400 * 1000 ∧
    getTime (expires s) = getTime (created s) + 86400 * 1000 + (11 - 10) ∧
    ∀ (evs : list Event) (s' : Session),
      forallb read_or_sweep evs = true →
      run evs (snd (post_haptic (mkTicks 10 11 12) demo_request ∅))
        !! "abc123" = Some s' →
      s' = s ∧ created s' = created s ∧ expires s' = expires s.
Proof.
  apply (created_expires_from_readings (mkTicks 10 11 12) demo_request ∅).
  - reflexivity.
  - vm_compute; discriminate.
Defined.

(** ** Rejected requests *)

(** C7: a create request with an empty session key, or with a payload that
    is absent (or otherwise falsy), is answered 400 and leaves the store,
    and so its size, as they were. *)
Theorem invalid_request_rejected (clk : Ticks) (req : PostRequest)
    (sessions : Store) :
  params_sessionId req = "" ∨ truthy (assoc_last "ahap" (body req)) = false →
  fst (post_haptic clk req sessions) = InvalidArgument ∧
  status (fst (post_haptic clk req sessions)) = 400%nat ∧
  snd (post_haptic clk req sessions) = sessions ∧
  size (snd (post_haptic clk req sessions)) = size sessions.
Proof.
  intros H.
  assert (valid req = false) as Hv.
  { unfold valid. destruct H as [->| ->]; [done|apply andb_false_r]. }
  rewrite (post_haptic_invalid clk req sessions Hv). done.
Qed.

Lemma invalid_request_rejected_witness :
  fst (post_haptic (mkTicks 9 9 9) empty_key_request demo_store)
    = InvalidArgument ∧
  status (fst (post_haptic (mkTicks 9 9 9) empty_key_request demo_store))
    = 400%nat ∧
  snd (post_haptic (mkTicks 9 9 9) empty_key_request demo_store)
    = demo_store ∧
  size (snd (post_haptic (mkTicks 9 9 9) empty_key_request demo_store))
    = size demo_store.
Proof.
  apply (invalid_request_rejected (mkTicks 9 9 9) empty_key_request
           demo_store).
  left. reflexivity.
Defined.

(** ** Expiry does not reverse *)

(** C8: once a lookup of [K] answers [NotFound], it still does after any
    sequence of events among which there is no create request for [K]. *)
Theorem not_found_is_stable (K : string) (evs : list Event)
    (sessions : Store) :
  forallb (λ e, negb (inserts K e)) evs = true →
  get_api_haptic K sessions = NotFound →
  get_api_haptic K (run evs sessions) = NotFound.
Proof.
  intros Hevs HN. apply get_api_haptic_NotFound in HN.
  apply get_api_haptic_NotFound.
  destruct (run_no_insert K evs sessions Hevs) as [H|H]; congruence.
Qed.

Lemma not_found_is_stable_witness :
  get_api_haptic "abc123" (run later_events swept_store) = NotFound.
Proof.
  apply (not_found_is_stable "abc123" later_events swept_store).
  - reflexivity.
  - vm_compute; reflexivity.
Defined.

(** ** Sweeping twice *)

(** C9: a second sweep at the same time as the first leaves the store as
    the first left it, and so removes nothing. *)
Theorem sweep_idempotent (now : Millis) (sessions : Store) :
  cleanupExpiredSessions now (cleanupExpiredSessions now sessions) =
  cleanupExpiredSessions now sessions ∧
  size (cleanupExpiredSessions now (cleanupExpiredSessions now sessions)) =
  size (cleanupExpiredSessions now sessions).
Proof.
  assert (cleanupExpiredSessions now (cleanupExpiredSessions now sessions) =
          cleanupExpiredSessions now sessions) as H.
  { apply map_eq. intros k. rewrite !lookup_cleanup.
    destruct (sessions !! k) as [s|]; [|done].
    destruct (expired now s) eqn:E; [done|]. by rewrite E. }
  split; [exact H|by rewrite H].
Qed.

(** ** The share page *)

(** C10, as stated, fails: the stored payload has no [Pattern] array, nor
    has its [Pattern] a length, yet the page is rendered, with [undefined]
    for the number of events. *)
Lemma share_page_scalar_pattern_counterexample :
  scalar_pattern_store !! "abc123" =
    Some (new_session (mkTicks 0 0 0) scalar_pattern_request) ∧
  has_Pattern_array
    (ahap (new_session (mkTicks 0 0 0) scalar_pattern_request)) = false ∧
  get_haptic_page "abc123" scalar_pattern_store =
    ok (SharePage "abc123" None 0).
Proof. repeat split; vm_compute; reflexivity. Qed.

(** C10, amended: for a stored record, rendering the share page fails with
    an uncaught [TypeError] when the payload has no [Pattern] member or its
    [Pattern] is [null]; for every other [Pattern], array or not, the page
    is produced, showing [Pattern.length] ([undefined] when [Pattern] has
    none), unless that length has no string, which only the [length] member
    of an object [Pattern] can lack, and then rendering fails with a
    [TypeError] too. *)
Theorem share_page_failure_cases (K : string) (sessions : Store)
    (s : Session) :
  sessions !! K = Some s →
  if Pattern_length_throws (ahap s)
  then get_haptic_page K sessions = mkResponse 500 (Uncaught TypeError)
  else ∃ (p : JSON) (length : Value),
         get_member "Pattern" (ahap s) = inr (Some p) ∧
         get_length (Some p) = inr length ∧
         get_haptic_page K sessions =
           (if unprintable length
            then mkResponse 500 (Uncaught TypeError)
            else ok (SharePage K length (getTime (created s)))) ∧
         (is_object p = true ∨ unprintable length = false).
Proof.
  intros HK. unfold Pattern_length_throws, get_haptic_page. rewrite HK.
  destruct (get_member "Pattern" (ahap s)) as [[]|[p|]]; simpl; try done.
  destruct p as [|b|n|str|items|ms]; simpl; try done;
    eexists _, _; (split; [reflexivity|]); (split; [reflexivity|]);
    try (split; [reflexivity|by right]).
  split; [|by left].
  destruct (assoc_last "length" ms) as [j|]; simpl; [|done].
  by destruct (ToString_throws j).
Qed.

Lemma share_page_failure_cases_witness :
  get_haptic_page "abc123"
    (snd (post_haptic (mkTicks 0 0 0) no_pattern_request ∅)) =
  mkResponse 500 (Uncaught TypeError).
Proof.
  apply (share_page_failure_cases "abc123"
           (snd (post_haptic (mkTicks 0 0 0) no_pattern_request ∅))
           (new_session (mkTicks 0 0 0) no_pattern_request)).
  vm_compute; reflexivity.
Defined.

(** A [length] that has no string: the page is not rendered. *)
Example share_page_unprintable_length :
  get_haptic_page "abc123"
    (snd (post_haptic (mkTicks 0 0 0) unprintable_length_request ∅)) =
  mkResponse 500 (Uncaught TypeError).
Proof. vm_compute; reflexivity. Qed.

(** A string [Pattern] is counted in code units. *)
Example share_page_counts_code_units :
  get_haptic_page "abc123"
    (snd (post_haptic (mkTicks 0 0 0) emoji_pattern_request ∅)) =
  ok (SharePage "abc123" (Some (JNum 2)) 0).
Proof. vm_compute; reflexivity. Qed.

(** ** More on the sweep *)

(** X1: a sweep only removes: every record found after it was there before
    it, unchanged, and the number of records does not grow. *)
Theorem sweep_only_removes (now : Millis) (sessions : Store) :
  cleanupExpiredSessions now sessions ⊆ sessions ∧
  (size (cleanupExpiredSessions now sessions) ≤ size sessions)%nat.
Proof.
  assert (cleanupExpiredSessions now sessions ⊆ sessions) as H.
  { apply map_subseteq_spec. intros k s Hk.
    by destruct (lookup_cleanup_Some now sessions k s Hk). }
  split; [exact H|by apply map_subseteq_size].
Qed.

(** X2: a sweep leaves the store as it is exactly when no record has its
    [expires] before [now]. *)
Theorem sweep_identity_iff (now : Millis) (sessions : Store) :
  cleanupExpiredSessions now sessions = sessions ↔
  ∀ (k : string) (s : Session),
    sessions !! k = Some s → now ≤ getTime (expires s).
Proof.
  split.
  - intros Heq k s Hk. rewrite <- Heq in Hk.
    destruct (lookup_cleanup_Some now _ k s Hk) as [_ He].
    unfold expired in He. by apply Z.ltb_ge.
  - intros Hall. apply map_eq. intros k. rewrite lookup_cleanup.
    destruct (sessions !! k) as [s|] eqn:Hk; [|done].
    unfold expired. by rewrite (proj2 (Z.ltb_ge _ _) (Hall k s Hk)).
Qed.

(** X3: two sweeps in a row, in either order of their times, leave what one
    sweep at the later of the two times leaves. *)
Theorem sweeps_compose (a b : Millis) (sessions : Store) :
  cleanupExpiredSessions a (cleanupExpiredSessions b sessions) =
  cleanupExpiredSessions (Z.max a b) sessions.
Proof.
  apply map_eq. intros k. rewrite !lookup_cleanup.
  destruct (sessions !! k) as [s|]; [|done]. unfold expired.
  destruct (Z.ltb_spec (getTime (expires s)) b);
    destruct (Z.ltb_spec (getTime (expires s)) a);
    destruct (Z.ltb_spec (getTime (expires s)) (Z.max a b));
    try done; lia.
Qed.

(** X4: a sweep lowers the number of records by exactly the number of
    records whose [expires] is before [now]. *)
Theorem sweep_size_accounting (now : Millis) (sessions : Store) :
  size sessions =
  (size (cleanupExpiredSessions now sessions) + expired_count now sessions)%nat.
Proof.
  unfold expired_count. rewrite cleanup_filter.
  rewrite <- map_size_disj_union.
  - f_equal. symmetry.
    rewrite <- (map_filter_union_complement
      (λ kv : string * Session, expired now kv.2 = false) sessions) at 3.
    f_equal. apply map_filter_ext. intros k s _. simpl.
    by destruct (expired now s).
  - apply map_disjoint_spec. intros k x y.
    rewrite !map_lookup_filter_Some. simpl. intros [Hx H1] [Hy H2].
    rewrite Hx in Hy. injection Hy as <-. congruence.
Qed.

(** ** The health probe *)

(** X5: the probe reports no session exactly when every lookup answers
    [NotFound]. *)
Theorem health_zero_iff_all_not_found (sessions : Store) :
  get_health sessions = ok (JsonHealth 0) ↔
  ∀ K : string, get_api_haptic K sessions = NotFound.
Proof.
  unfold get_health, ok. split.
  - intros [= H%map_size_empty_iff] K. apply get_api_haptic_NotFound.
    by rewrite H, lookup_empty.
  - intros H. do 2 f_equal. apply map_size_empty_iff, map_empty.
    intros K. by apply get_api_haptic_NotFound.
Qed.

(** ** The two read routes *)

(** X6: the share page and the API lookup miss together: the page answers
    its 404 exactly when the lookup answers [NotFound]. *)
Theorem page_and_api_miss_together (K : string) (sessions : Store) :
  get_haptic_page K sessions =
    mkResponse 404 (Text "Haptic session not found or expired") ↔
  get_api_haptic K sessions = NotFound.
Proof.
  rewrite get_api_haptic_NotFound. unfold get_haptic_page.
  destruct (sessions !! K) as [s|]; [|done].
  split; [|done].
  destruct (get_member "Pattern" (ahap s)) as [e|pattern]; [done|].
  destruct (get_length pattern) as [e|length]; [done|].
  destruct (interpolate length); done.
Qed.

(** ** Create, then render *)

Lemma post_haptic_valid_fst (clk : Ticks) (req : PostRequest)
    (sessions : Store) :
  valid req = true →
  fst (post_haptic clk req sessions) =
  ok (JsonCreated (params_sessionId req)
        ("haptic://load/" ++ params_sessionId req)
        (protocol req ++ "://" ++ host_text (host req)
           ++ "/haptic/" ++ params_sessionId req)).
Proof.
  unfold valid, post_haptic. intros [-> ->]%andb_true_iff. done.
Qed.

(** X7: when the payload stored by a create request is an object whose
    [Pattern] is an array, the share page of its key is rendered and shows
    the key, the number of elements of the array, and the reading of the
    clock taken for [created]. *)
Theorem create_then_render (clk : Ticks) (req : PostRequest) (sessions : Store)
    (K : string) (ms : list (string * JSON)) (items : list JSON) :
  params_sessionId req = K →
  K ≠ "" →
  assoc_last "ahap" (body req) = Some (JObj ms) →
  assoc_last "Pattern" ms = Some (JArr items) →
  tick_cleanup clk ≤ tick_expires clk + TTL →
  get_haptic_page K (snd (post_haptic clk req sessions)) =
  ok (SharePage K (Some (JNum (Z.of_nat (List.length items))))
        (tick_created clk)).
Proof.
  intros <- HK Ha Hp Hclk.
  assert (valid req = true) as Hv by (apply valid_spec; by rewrite Ha).
  unfold get_haptic_page.
  rewrite (post_haptic_lookup_same clk req sessions Hv Hclk).
  unfold new_session. simpl. rewrite Ha. simpl. rewrite Hp. done.
Qed.

Lemma create_then_render_witness :
  get_haptic_page "abc123" (snd (post_haptic (mkTicks 0 0 0) demo_request ∅)) =
  ok (SharePage "abc123"
        (Some (JNum (Z.of_nat (List.length [JNum 1; JNum 2; JNum 3])))) 0).
Proof.
  apply (create_then_render (mkTicks 0 0 0) demo_request ∅ "abc123"
           [("Pattern", JArr [JNum 1; JNum 2; JNum 3])]
           [JNum 1; JNum 2; JNum 3]).
  - reflexivity.
  - discriminate.
  - reflexivity.
  - reflexivity.
  - vm_compute; discriminate.
Defined.

(** X8: a truthy payload that is not an object (a string, a number, [true],
    an array) is accepted and stored by the create handler and returned by
    the lookup, while the share page of its key answers 500. *)
Theorem non_object_payload_stored_not_rendered (clk : Ticks)
    (req : PostRequest) (sessions : Store) (K : string) (P : JSON) :
  params_sessionId req = K →
  K ≠ "" →
  assoc_last "ahap" (body req) = Some P →
  truthy (Some P) = true →
  is_object P = false →
  tick_cleanup clk ≤ tick_expires clk + TTL →
  let sessions' := snd (post_haptic clk req sessions) in
  status (fst (post_haptic clk req sessions)) = 200%nat ∧
  (∃ s : Session,
     get_api_haptic K sessions' = ok (JsonSession s) ∧ ahap s = Some P) ∧
  get_haptic_page K sessions' = mkResponse 500 (Uncaught TypeError).
Proof.
  intros <- HK Ha Ht Ho Hclk sessions'.
  assert (valid req = true) as Hv by (apply valid_spec; by rewrite Ha).
  pose proof (post_haptic_lookup_same clk req sessions Hv Hclk) as Hl.
  split; [by apply post_haptic_valid_response|]. split.
  - exists (new_session clk req). split; [by apply get_api_haptic_Some|].
    exact Ha.
  - unfold get_haptic_page, sessions'. rewrite Hl.
    unfold new_session. simpl. rewrite Ha.
    destruct P; simpl in *; done.
Qed.

Lemma non_object_payload_stored_not_rendered_witness :
  status (fst (post_haptic (mkTicks 3 3 3) string_payload_request ∅))
    = 200%nat ∧
  (∃ s : Session,
     get_api_haptic "abc123"
       (snd (post_haptic (mkTicks 3 3 3) string_payload_request ∅))
       = ok (JsonSession s) ∧
     ahap s = Some (JStr "buzz")) ∧
  get_haptic_page "abc123"
    (snd (post_haptic (mkTicks 3 3 3) string_payload_request ∅))
    = mkResponse 500 (Uncaught TypeError).
Proof.
  apply (non_object_payload_stored_not_rendered (mkTicks 3 3 3)
           string_payload_request ∅ "abc123" (JStr "buzz")).
  - reflexivity.
  - discriminate.
  - reflexivity.
  - reflexivity.
  - reflexivity.
  - vm_compute; discriminate.
Defined.

(** X9: the lookup after a create request returns the whole record the
    request wrote: the payload and the [mediaUrl] as sent ([undefined] when
    the body has none), [created] at the first reading of the clock and
    [expires] 86400000 milliseconds after the second. *)
Theorem lookup_returns_record_as_written (clk : Ticks) (req : PostRequest)
    (sessions : Store) :
  valid req = true →
  tick_cleanup clk ≤ tick_expires clk + TTL →
  get_api_haptic (params_sessionId req) (snd (post_haptic clk req sessions)) =
  ok (JsonSession
        (mkSession (assoc_last "ahap" (body req))
           (assoc_last "mediaUrl" (body req))
           (toISOString (tick_created clk))
           (toISOString (tick_expires clk + 86400000)))).
Proof.
  intros Hv Hclk. apply get_api_haptic_Some.
  by apply post_haptic_lookup_same.
Qed.

Lemma lookup_returns_record_as_written_witness :
  get_api_haptic (params_sessionId other_request)
    (snd (post_haptic (mkTicks 10 11 12) other_request demo_store)) =
  ok (JsonSession
        (mkSession (assoc_last "ahap" (body other_request))
           (assoc_last "mediaUrl" (body other_request))
           (toISOString 10) (toISOString (11 + 86400000)))).
Proof.
  apply (lookup_returns_record_as_written (mkTicks 10 11 12) other_request
           demo_store).
  - reflexivity.
  - vm_compute; discriminate.
Defined.

(** X10: the [qrData] of the answer to an accepted create request tells the
    session apart: two accepted requests answered with the same [qrData]
    have the same session id. *)
Theorem qrData_identifies_session (clk1 clk2 : Ticks)
    (req1 req2 : PostRequest) (sessions1 sessions2 : Store) :
  valid req1 = true →
  valid req2 = true →
  qrData_of (fst (post_haptic clk1 req1 sessions1)) =
  qrData_of (fst (post_haptic clk2 req2 sessions2)) →
  params_sessionId req1 = params_sessionId req2.
Proof.
  intros H1 H2. rewrite !post_haptic_valid_fst by done.
  unfold qrData_of. simpl. intros [= H]. exact H.
Qed.

Lemma qrData_identifies_session_witness :
  params_sessionId demo_request = params_sessionId demo_overwrite.
Proof.
  apply (qrData_identifies_session (mkTicks 0 0 0) (mkTicks 7 7 7)
           demo_request demo_overwrite ∅ demo_store).
  - reflexivity.
  - reflexivity.
  - vm_compute; reflexivity.
Defined.

(** ** Records over sequences of events *)

Lemma step_post_snd (clk : Ticks) (req : PostRequest) (sessions : Store) :
  snd (step (PostHaptic clk req) sessions) = snd (post_haptic clk req sessions).
Proof. simpl. by destruct (post_haptic clk req sessions). Qed.

Lemma step_spares (K : string) (s : Session) (e : Event) (sessions : Store) :
  spares K s e = true →
  sessions !! K = Some s →
  snd (step e sessions) !! K = Some s.
Proof.
  unfold spares. intros [Ho Hs]%andb_true_iff HK.
  apply negb_true_iff in Ho.
  destruct e as [clk req| | | |now]; try exact HK.
  - rewrite step_post_snd. simpl in Ho, Hs.
    destruct (valid req) eqn:Hv.
    + simpl in Ho. apply String.eqb_neq in Ho.
      rewrite post_haptic_lookup_other by (done || congruence).
      rewrite lookup_cleanup, HK.
      apply negb_true_iff in Hs. by rewrite Hs.
    + by rewrite post_haptic_invalid.
  - simpl in *. rewrite lookup_cleanup, HK.
    apply negb_true_iff in Hs. by rewrite Hs.
Qed.

(** X11: a record stays where it is, unchanged and returned by the lookup,
    through any sequence of events none of which writes its key or sweeps
    at a time past its [expires]. *)
Theorem record_persists_until_expiry (K : string) (s : Session)
    (evs : list Event) (sessions : Store) :
  sessions !! K = Some s →
  forallb (spares K s) evs = true →
  run evs sessions !! K = Some s ∧
  get_api_haptic K (run evs sessions) = ok (JsonSession s).
Proof.
  intros HK Hevs.
  assert (run evs sessions !! K = Some s) as H.
  { revert sessions HK. induction evs as [|e evs IH]; intros sessions HK.
    - exact HK.
    - simpl in Hevs. apply andb_true_iff in Hevs as [He Hevs].
      simpl. apply IH; [exact Hevs|]. by apply step_spares. }
  split; [exact H|by apply get_api_haptic_Some].
Qed.

Lemma record_persists_until_expiry_witness :
  run busy_events demo_store !! "abc123" = Some demo_session ∧
  get_api_haptic "abc123" (run busy_events demo_store)
    = ok (JsonSession demo_session).
Proof.
  apply (record_persists_until_expiry "abc123" demo_session busy_events
           demo_store).
  - vm_compute; reflexivity.
  - vm_compute; reflexivity.
Defined.

(** A property of entries that every record written by the create requests
    of a sequence has holds of the whole store after the sequence, if it
    held before. *)
Lemma run_invariant (P : string → Session → Prop) (evs : list Event)
    (sessions : Store) :
  (∀ clk req, In (PostHaptic clk req) evs → valid req = true →
     P (params_sessionId req) (new_session clk req)) →
  map_Forall P sessions →
  map_Forall P (run evs sessions).
Proof.
  revert sessions. induction evs as [|e evs IH]; intros sessions Hnew HP.
  - exact HP.
  - simpl. apply IH; [intros clk req Hin; apply Hnew; by right|].
    destruct e as [clk req| | | |now]; try exact HP.
    + rewrite step_post_snd. destruct (valid req) eqn:Hv.
      * rewrite post_haptic_valid by done. intros k s Hk.
        apply lookup_cleanup_Some in Hk as [Hk _].
        destruct (decide (params_sessionId req = k)) as [<-|Hne].
        -- rewrite lookup_insert_eq in Hk. injection Hk as <-.
           apply Hnew; [by left|done].
        -- rewrite lookup_insert_ne in Hk by done. by apply HP.
      * by rewrite post_haptic_invalid.
    + simpl. intros k s Hk.
      apply lookup_cleanup_Some in Hk as [Hk _]. by apply HP.
Qed.

(** X12: whatever the server has been through since it started with an
    empty map, every record it holds is under a non-empty key and has a
    truthy payload. *)
Theorem stored_records_passed_the_guard (evs : list Event) (K : string)
    (s : Session) :
  run evs ∅ !! K = Some s →
  K ≠ "" ∧ truthy (ahap s) = true.
Proof.
  intros HK.
  apply (run_invariant (λ K s, K ≠ "" ∧ truthy (ahap s) = true) evs ∅);
    [|apply map_Forall_empty|exact HK].
  intros clk req _ Hv. by apply valid_spec in Hv.
Qed.

Lemma stored_records_passed_the_guard_witness :
  "other" ≠ "" ∧
  truthy (ahap (new_session (mkTicks 10 11 11) other_request)) = true.
Proof.
  apply (stored_records_passed_the_guard demo_events "other"
           (new_session (mkTicks 10 11 11) other_request)).
  vm_compute; reflexivity.
Defined.

(** X13: if within every create request the clock does not run backwards
    between the reading for [created] and the reading for [expires], every
    record the server holds expires at least 24 hours after it was
    created. *)
Theorem stored_records_live_a_day (evs : list Event) (K : string)
    (s : Session) :
  forallb clock_ordered evs = true →
  run evs ∅ !! K = Some s →
  getTime (created s) + 86400000 ≤ getTime (expires s).
Proof.
  intros Hclk HK.
  refine (run_invariant
            (λ _ s, getTime (created s) + 86400000 ≤ getTime (expires s))
            evs ∅ _ (map_Forall_empty _) K s HK).
  intros clk req Hin _.
  pose proof (proj1 (forallb_forall _ _) Hclk _ Hin) as Ho.
  simpl in Ho. apply Z.leb_le in Ho.
  unfold new_session, getTime, toISOString, TTL. simpl. lia.
Qed.

Lemma stored_records_live_a_day_witness :
  getTime (created (new_session (mkTicks 10 11 11) other_request)) + 86400000
  ≤ getTime (expires (new_session (mkTicks 10 11 11) other_request)).
Proof.
  apply (stored_records_live_a_day demo_events "other"
           (new_session (mkTicks 10 11 11) other_request)).
  - vm_compute; reflexivity.
  - vm_compute; reflexivity.
Defined.

(** X14: after an event that sweeps, be it the timer or an accepted create
    request, no record the store holds has its [expires] before the reading
    of the clock the sweep was made with. *)
Theorem no_stale_record_after_sweep (e : Event) (now : Millis)
    (sessions : Store) (k : string) (s : Session) :
  sweep_time e = Some now →
  snd (step e sessions) !! k = Some s →
  now ≤ getTime (expires s).
Proof.
  intros Hsw Hk.
  assert (∃ m : Store, snd (step e sessions) = cleanupExpiredSessions now m)
    as [m Hm].
  { destruct e as [clk req| | | |t]; simpl in Hsw; try done.
    - destruct (valid req) eqn:Hv; [|done]. injection Hsw as <-.
      rewrite step_post_snd, post_haptic_valid by done. eauto.
    - injection Hsw as <-. simpl. eauto. }
  rewrite Hm in Hk. apply lookup_cleanup_Some in Hk as [_ He].
  unfold expired in He. by apply Z.ltb_ge.
Qed.

Lemma no_stale_record_after_sweep_witness :
  86400000 ≤ getTime (expires demo_session).
Proof.
  apply (no_stale_record_after_sweep (TimerSweep 86400000) 86400000
           demo_store "abc123" demo_session).
  - reflexivity.
  - vm_compute; reflexivity.
Defined.

(** ** Create requests for different keys *)

(** X15: two accepted create requests for different keys, each swept no
    later than the expiry either of them sets, leave the same store in
    whichever order they are served. *)
Theorem creates_for_different_keys_commute (clk1 clk2 : Ticks)
    (req1 req2 : PostRequest) (sessions : Store) :
  valid req1 = true →
  valid req2 = true →
  params_sessionId req1 ≠ params_sessionId req2 →
  tick_cleanup clk1 ≤ tick_expires clk1 + TTL →
  tick_cleanup clk1 ≤ tick_expires clk2 + TTL →
  tick_cleanup clk2 ≤ tick_expires clk1 + TTL →
  tick_cleanup clk2 ≤ tick_expires clk2 + TTL →
  snd (post_haptic clk2 req2 (snd (post_haptic clk1 req1 sessions))) =
  snd (post_haptic clk1 req1 (snd (post_haptic clk2 req2 sessions))).
Proof.
  intros Hv1 Hv2 Hne H11 H12 H21 H22.
  rewrite !post_haptic_valid by done.
  assert (∀ (c c' : Ticks) (r : PostRequest),
            tick_cleanup c ≤ tick_expires c' + TTL →
            expired (tick_cleanup c) (new_session c' r) = false) as Hfresh.
  { intros c c' r H. unfold expired, new_session, getTime, toISOString.
    simpl. by apply Z.ltb_ge. }
  apply map_eq. intros k. rewrite !lookup_cleanup.
  destruct (decide (k = params_sessionId req1)) as [->|Hk1];
    [|destruct (decide (k = params_sessionId req2)) as [->|Hk2]].
  - rewrite (lookup_insert_ne _ (params_sessionId req2)) by done.
    rewrite lookup_cleanup, !lookup_insert_eq.
    by rewrite !Hfresh.
  - rewrite (lookup_insert_ne _ (params_sessionId req1)) by done.
    rewrite lookup_cleanup, !lookup_insert_eq.
    by rewrite !Hfresh.
  - rewrite !lookup_insert_ne by done. rewrite !lookup_cleanup.
    rewrite !lookup_insert_ne by done.
    destruct (sessions !! k) as [s|]; [|done].
    destruct (expired (tick_cleanup clk1) s) eqn:E1;
      destruct (expired (tick_cleanup clk2) s) eqn:E2;
      rewrite ?E1, ?E2; done.
Qed.

Lemma creates_for_different_keys_commute_witness :
  snd (post_haptic (mkTicks 4 4 5) other_request
         (snd (post_haptic (mkTicks 1 2 3) demo_request ∅))) =
  snd (post_haptic (mkTicks 1 2 3) demo_request
         (snd (post_haptic (mkTicks 4 4 5) other_request ∅))).
Proof.
  apply (creates_for_different_keys_commute (mkTicks 1 2 3) (mkTicks 4 4 5)
           demo_request other_request ∅).
  - reflexivity.
  - reflexivity.
  - discriminate.
  - vm_compute; discriminate.
  - vm_compute; discriminate.
  - vm_compute; discriminate.
  - vm_compute; discriminate.
Defined.

(** ** The size of the store *)

Lemma step_size_le (e : Event) (sessions : Store) :
  (size (snd (step e sessions)) ≤
   size sessions + (if accepted e then 1 else 0))%nat.
Proof.
  assert (∀ now (m : Store), (size (cleanupExpiredSessions now m) ≤ size m)%nat)
    as Hsweep.
  { intros now m. rewrite cleanup_filter. apply map_size_filter. }
  destruct e as [clk req| | | |now]; simpl accepted; try (simpl; lia).
  - rewrite step_post_snd. destruct (valid req) eqn:Hv.
    + rewrite post_haptic_valid by done.
      etrans; [apply Hsweep|]. rewrite map_size_insert.
      destruct (sessions !! params_sessionId req); unfold id; lia.
    + rewrite post_haptic_invalid by done. simpl. lia.
  - simpl. etrans; [apply Hsweep|]. lia.
Qed.

(** X16: over any sequence of events the number of records grows by at most
    the number of create requests that passed the guard; reads, rejected
    requests and the timer never add a record. *)
Theorem store_grows_with_accepted_creates (evs : list Event)
    (sessions : Store) :
  (size (run evs sessions) ≤
   size sessions + List.length (List.filter accepted evs))%nat.
Proof.
  revert sessions. induction evs as [|e evs IH]; intros sessions; simpl.
  - lia.
  - etrans; [apply IH|].
    pose proof (step_size_le e sessions) as He.
    destruct (accepted e); simpl; lia.
Qed.
